(** * The sequential bot of pitaya-bot ([bot/sequential.go])

    A shallow embedding of [SequentialBot] and of its methods, together with
    the properties of the run loop, of the four step handlers and of the
    connection lifecycle.

    The bot is a Go struct mutated through a pointer receiver; it talks to a
    server through a [PClient] and to a handful of helpers that live in other
    files of the package.  The embedding threads two things through every
    method: the bot itself and the list of calls made so far on the protocol
    client (the [trace]).  What the helpers answer is not fixed here: they are
    the fields of the class [Collaborators], and an answer may depend on the
    whole trace, so that a server may answer the same request differently the
    second time. *)

From Stdlib Require Import ZArith.
From stdpp Require Import base option list strings gmap.

Open Scope string_scope.
Open Scope list_scope.
#[local] Set Warnings "-register-all".

(** ** Values and types that come from other packages *)

(** A Go [interface{}] as it is decoded from JSON: the dynamic type is the
    constructor, and the type assertion [val.(string)] succeeds on [VStr]
    only. *)
Inductive value : Type :=
  | VNil
  | VBool (b : bool)
  | VNum (n : Z)
  | VStr (s : string)
  | VList (l : list value)
  | VMap (m : list (string * value)).

(** [h, ok := val.(string)] *)
Definition as_string (val : value) : option string :=
  match val with
  | VStr h => Some h
  | _ => None
  end.

(** The types sequential.go uses and does not declare: the protocol client
    behind [*PClient], the [storage] behind [*storage], the parsed response,
    [models.ExpectSpec], [models.StoreSpec] and [metrics.Reporter].  Nothing
    in sequential.go looks inside them. *)
Class ExternalTypes : Type := {
  PClient : Type;
  Storage : Type;
  Response : Type;
  ExpectSpec : Type;
  StoreSpec : Type;
  Reporter : Type
}.

(** [map[string]interface{}] *)
Abbreviation ArgsMap := (gmap string value).

(** How a call ends: it returns, the process exits ([logger.Fatal] ends in
    [os.Exit]), or it panics (a method of [PClient] reached through a nil
    pointer). *)
Inductive outcome (A : Type) : Type :=
  | Done (a : A)
  | Fatal
  | Panic.
Arguments Done {A} a.
Arguments Fatal {A}.
Arguments Panic {A}.

Section Model.
Context `{Ty : ExternalTypes}.

(** A Go [error]: the string error that [fmt.Errorf] builds, and the
    expectation error of the package. *)
Inductive error : Type :=
  | errorString (msg : string)
  | ExpectError (err : error) (rawResp : list Byte.byte) (expect : ExpectSpec).

(** Modelled from the spec: [NewExpectError] is declared in another file of
    the package; section 7 says that the expectation error carries the raw
    response and the failed expectation, so the result holds the three
    arguments of the call as they are. *)
Definition NewExpectError (err : error) (rawResp : list Byte.byte)
    (expect : ExpectSpec) : error :=
  ExpectError err rawResp expect.

(** [fmt.Errorf("...: %s", s)] *)
Definition Errorf (prefix s : string) : error := errorString (prefix +:+ s).

(** [models.Operation], the fields sequential.go reads.  The Go field [Type]
    is [Type_] here. *)
Record Operation : Type := {
  Type_ : string;
  URI : string;
  Args : ArgsMap;
  Expect : ExpectSpec;
  Store : StoreSpec;
  Timeout : Z
}.

(** [models.Spec] *)
Record Spec : Type := {
  SequentialOperations : list Operation
}.

(** [*viper.Viper], through the two getters that are called. *)
Record viper : Type := {
  GetString : string -> string;
  GetBool : string -> bool
}.

(** The struct.  [client] is a pointer, [None] is [nil].  The [logger] field
    is left out: [Debug] and [Error] only print, and [Fatal] is the outcome
    [Fatal] below. *)
Record SequentialBot : Type := {
  client : option PClient;
  config : viper;
  id_ : Z;
  spec : Spec;
  storage : Storage;
  host : string;
  metricsReporter : list Reporter
}.

Definition set_client (c : option PClient) (b : SequentialBot) : SequentialBot :=
  {| client := c; config := config b; id_ := id_ b; spec := spec b;
     storage := storage b; host := host b;
     metricsReporter := metricsReporter b |}.

Definition set_host (h : string) (b : SequentialBot) : SequentialBot :=
  {| client := client b; config := config b; id_ := id_ b; spec := spec b;
     storage := storage b; host := h;
     metricsReporter := metricsReporter b |}.

Definition set_storage (s : Storage) (b : SequentialBot) : SequentialBot :=
  {| client := client b; config := config b; id_ := id_ b; spec := spec b;
     storage := s; host := host b;
     metricsReporter := metricsReporter b |}.

(** ** Calls on the protocol client *)

(** One entry per call that reaches the protocol client, in call order, with
    the arguments of the call.  [ENewPClient] also records the client that
    was built, [None] when building failed. *)
Inductive event : Type :=
  | ENewPClient (h : string) (tls : bool) (res : option PClient)
  | EStartListening (c : PClient)
  | EDisconnect (c : PClient)
  | ESendRequest (c : PClient) (route : string) (args : ArgsMap)
  | ESendNotify (c : PClient) (route : string) (args : ArgsMap)
  | EReceivePush (c : PClient) (route : string) (timeout : Z).

Definition trace : Type := list event.

(** Modelled from the spec: the helpers of the package that sequential.go
    calls and that are declared in other files, as parameters.  A Go result
    [(x, err)] is a sum, a result [error] is an [option].  The helpers that
    reach the server read the trace.  [buildArgs] and [validateExpectations]
    receive the bot's [*storage]; sections 3 and 4.3 say that Storage is
    written only by the Response Store Writer and only read by the Resolver
    and the Validator, so these two are functions of the storage and
    [storeData] alone returns a new one. *)
Class Collaborators : Type := {
  newStorage : viper -> Storage;
  buildArgs : ArgsMap -> Storage -> ArgsMap + error;
  sendRequest : trace -> ArgsMap -> string -> PClient -> list Reporter ->
                (Response * list Byte.byte) + error;
  sendNotify : trace -> ArgsMap -> string -> PClient -> option error;
  validateExpectations : ExpectSpec -> Response -> Storage -> option error;
  storeData : StoreSpec -> Storage -> Response -> Storage * option error;
  NewPClient : trace -> string -> bool -> PClient + error;
  ReceivePush : trace -> PClient -> string -> Z -> Response + error;
  Connected : trace -> PClient -> bool
}.

(** ** The monad of the methods *)

Definition M (A : Type) : Type :=
  SequentialBot -> trace -> outcome A * SequentialBot * trace.

Definition ret {A} (a : A) : M A := fun b t => (Done a, b, t).

Definition bind {A B} (m : M A) (k : A -> M B) : M B := fun b t =>
  match m b t with
  | (Done a, b', t') => k a b' t'
  | (Fatal, b', t') => (Fatal, b', t')
  | (Panic, b', t') => (Panic, b', t')
  end.

#[global] Instance M_ret : MRet M := @ret.
#[global] Instance M_bind : MBind M := fun A B k m => bind m k.

Definition get_bot : M SequentialBot := fun b t => (Done b, b, t).
Definition get_trace : M trace := fun b t => (Done t, b, t).
Definition modify (f : SequentialBot -> SequentialBot) : M unit :=
  fun b t => (Done tt, f b, t).
Definition emit (e : event) : M unit := fun b t => (Done tt, b, t ++ [e]).

(** [b.logger.Fatal(...)] *)
Definition logger_Fatal {A} : M A := fun b t => (Fatal, b, t).

(** [b.client], about to be dereferenced. *)
Definition the_client : M PClient := fun b t =>
  match client b with
  | Some c => (Done c, b, t)
  | None => (Panic, b, t)
  end.

(** [defer d] around [body]: [d] runs when [body] returns and when it panics,
    not when the process exits. *)
Definition defer {A} (d : M unit) (body : M A) : M A := fun b t =>
  match body b t with
  | (Done a, b', t') =>
      match d b' t' with
      | (Done _, b'', t'') => (Done a, b'', t'')
      | (Fatal, b'', t'') => (Fatal, b'', t'')
      | (Panic, b'', t'') => (Panic, b'', t'')
      end
  | (Fatal, b', t') => (Fatal, b', t')
  | (Panic, b', t') =>
      match d b' t' with
      | (Fatal, b'', t'') => (Fatal, b'', t'')
      | (_, b'', t'') => (Panic, b'', t'')
      end
  end.

(** ** The methods *)

Context `{E : Collaborators}.

(** [func (b *SequentialBot) Disconnect()] *)
Definition Disconnect : M unit :=
  c ← the_client;
  emit (EDisconnect c).

(** [func (b *SequentialBot) startListening()] *)
Definition startListening : M unit :=
  c ← the_client;
  emit (EStartListening c).

(** [b.client != nil && b.client.Connected()] *)
Definition client_connected (b : SequentialBot) (t : trace) : bool :=
  match client b with
  | Some c => Connected t c
  | None => false
  end.

(** [func (b *SequentialBot) Connect(hosts ...string) error] *)
Definition Connect (hosts : list string) : M (option error) :=
  match hosts with
  | h :: _ => modify (set_host h)
  | [] => ret tt
  end;;
  b ← get_bot;
  t ← get_trace;
  (if client_connected b t then logger_Fatal else ret tt);;
  let tls := GetBool (config b) "server.tls" in
  match NewPClient t (host b) tls with
  | inr err =>
      emit (ENewPClient (host b) tls None);;
      ret (Some err)
  | inl c =>
      emit (ENewPClient (host b) tls (Some c));;
      modify (set_client (Some c));;
      startListening;;
      ret None
  end.

(** [func (b *SequentialBot) Reconnect()] *)
Definition Reconnect : M unit :=
  Disconnect;;
  Connect [];;
  ret tt.

(** [func NewSequentialBot(config, spec, id, mr, logger) (Bot, error)] *)
Definition NewSequentialBot (cfg : viper) (sp : Spec) (i : Z)
    (mr : list Reporter) (t : trace) : outcome (SequentialBot + error) * trace :=
  let bot := {| client := None; config := cfg; id_ := i; spec := sp;
                storage := newStorage cfg;
                host := GetString cfg "server.host";
                metricsReporter := mr |} in
  match Connect [] bot t with
  | (Done (Some err), _, t') => (Done (inr err), t')
  | (Done None, b', t') => (Done (inl b'), t')
  | (Fatal, _, t') => (Fatal, t')
  | (Panic, _, t') => (Panic, t')
  end.

(** The tail shared by the two handlers that validate and store; [wrap] is
    what the handler does to the validator's error before returning it. *)
Definition validate_then_store (wrap : error -> error) (op : Operation)
    (resp : Response) : M (option error) :=
  b ← get_bot;
  match validateExpectations (Expect op) resp (storage b) with
  | Some err => ret (Some (wrap err))
  | None =>
      let '(s', err) := storeData (Store op) (storage b) resp in
      modify (set_storage s');;
      ret err
  end.

(** [func (b *SequentialBot) runRequest(op *models.Operation) error] *)
Definition runRequest (op : Operation) : M (option error) :=
  let route := URI op in
  b ← get_bot;
  match buildArgs (Args op) (storage b) with
  | inr err => ret (Some err)
  | inl args =>
      c ← the_client;
      t ← get_trace;
      emit (ESendRequest c route args);;
      match sendRequest t args route c (metricsReporter b) with
      | inr err => ret (Some err)
      | inl (resp, rawResp) =>
          validate_then_store
            (fun err => NewExpectError err rawResp (Expect op)) op resp
      end
  end.

(** [func (b *SequentialBot) runNotify(op *models.Operation) error] *)
Definition runNotify (op : Operation) : M (option error) :=
  let route := URI op in
  b ← get_bot;
  match buildArgs (Args op) (storage b) with
  | inr err => ret (Some err)
  | inl args =>
      c ← the_client;
      t ← get_trace;
      emit (ESendNotify c route args);;
      ret (sendNotify t args route c)
  end.

(** [func (b *SequentialBot) runFunction(op *models.Operation) error] *)
Definition runFunction (op : Operation) : M (option error) :=
  let fName := URI op in
  if decide (fName = "disconnect") then
    Disconnect;;
    ret None
  else if decide (fName = "connect") then
    b ← get_bot;
    let host0 := host b in
    match buildArgs (Args op) (storage b) with
    | inr err => ret (Some err)
    | inl args =>
        let h :=
          match args !! "host" with
          | Some val =>
              match as_string val with
              | Some h => h
              | None => host0
              end
          | None => host0
          end in
        Connect [h];;
        ret None
    end
  else if decide (fName = "reconnect") then
    Reconnect;;
    ret None
  else
    ret (Some (Errorf "Unknown function: " fName)).

(** [func (b *SequentialBot) listenToPush(op *models.Operation) error] *)
Definition listenToPush (op : Operation) : M (option error) :=
  c ← the_client;
  t ← get_trace;
  emit (EReceivePush c (URI op) (Timeout op));;
  match ReceivePush t c (URI op) (Timeout op) with
  | inr err => ret (Some err)
  | inl resp => validate_then_store (fun err => err) op resp
  end.

(** [func (b *SequentialBot) runOperation(op *models.Operation) error] *)
Definition runOperation (op : Operation) : M (option error) :=
  if decide (Type_ op = "request") then runRequest op
  else if decide (Type_ op = "notify") then runNotify op
  else if decide (Type_ op = "function") then runFunction op
  else if decide (Type_ op = "listen") then listenToPush op
  else ret (Some (Errorf "Unknown type: " (Type_ op))).

(** The [for _, step := range steps] loop of [Run]. *)
Fixpoint runSteps (steps : list Operation) : M (option error) :=
  match steps with
  | [] => ret None
  | step :: rest =>
      err ← runOperation step;
      match err with
      | Some e => ret (Some e)
      | None => runSteps rest
      end
  end.

(** [func (b *SequentialBot) Run() error] *)
Definition Run : M (option error) := fun b t =>
  let steps := SequentialOperations (spec b) in
  defer Disconnect (runSteps steps) b t.

(** ** Vocabulary of the properties *)

Implicit Types (b : SequentialBot) (t : trace) (op : Operation).

(** [b.config.GetBool("server.tls")] *)
Definition server_tls b : bool := GetBool (config b) "server.tls".

(** [m] keeps [I], whatever its outcome. *)
Definition preserves {A} (I : SequentialBot → trace → Prop) (m : M A) : Prop :=
  ∀ b t, I b t → I (m b t).1.2 (m b t).2.

(** The event is not the building of a client. *)
Definition not_dial (e : event) : Prop :=
  match e with
  | ENewPClient _ _ _ => False
  | _ => True
  end.

(** The event is not a call of [Disconnect] on a client. *)
Definition not_disconnect (e : event) : Prop :=
  match e with
  | EDisconnect _ => False
  | _ => True
  end.

(** The bot holds a client: [b.client] is not nil. *)
Definition has_client b t : Prop := is_Some (client b).

(** What the bot relies on from [PClient]: a client that is not connected
    does not come back, the one client that can become connected at a call
    is the client that [NewPClient] has just built. *)
Definition Connected_only_by_NewPClient : Prop :=
  ∀ t e c, Connected t c = false → Connected (t ++ [e]) c = true →
           ∃ h tls, e = ENewPClient h tls (Some c).

(** Every connected client is the client of the bot. *)
Definition one_live b t : Prop :=
  ∀ c, Connected t c = true → client b = Some c.

(** The states a bot goes through: built by [NewSequentialBot] at a moment
    when no client is connected, then driven through its methods. *)
Inductive reachable : SequentialBot → trace → Prop :=
  | reach_new cfg sp i mr t0 b t :
      (∀ c, Connected t0 c = false) →
      NewSequentialBot cfg sp i mr t0 = (Done (inl b), t) →
      reachable b t
  | reach_step op b t :
      reachable b t →
      reachable (runOperation op b t).1.2 (runOperation op b t).2
  | reach_Run b t :
      reachable b t → reachable (Run b t).1.2 (Run b t).2
  | reach_Connect hosts b t :
      reachable b t →
      reachable (Connect hosts b t).1.2 (Connect hosts b t).2
  | reach_Disconnect b t :
      reachable b t → reachable (Disconnect b t).1.2 (Disconnect b t).2
  | reach_Reconnect b t :
      reachable b t → reachable (Reconnect b t).1.2 (Reconnect b t).2.

(** The result [r] with the storage of its bot replaced by [s]. *)
Definition with_storage {A} (s : Storage)
    (r : outcome A * SequentialBot * trace) : outcome A * SequentialBot * trace :=
  (r.1.1, set_storage s r.1.2, r.2).

(** [func (b *SequentialBot) Initialize() error] *)
Definition Initialize : M (option error) := ret None.

(** [func (b *SequentialBot) Finalize() error] *)
Definition Finalize : M (option error) := ret None.

(** On a bot that holds a client, [m] does not panic and leaves a bot that
    holds a client. *)
Definition keeps_client {A} (m : M A) : Prop :=
  ∀ b t, is_Some (client b) →
         (m b t).1.1 ≠ Panic ∧ is_Some (client (m b t).1.2).

(** The fields that are set once, when the bot is built. *)
Definition same_setup b b' : Prop :=
  config b' = config b ∧ id_ b' = id_ b ∧ spec b' = spec b ∧
  metricsReporter b' = metricsReporter b.

End Model.


(** ** A scripted server

    One concrete choice of the external types and helpers, used to run the
    methods on closed inputs.  Clients are numbered, a response is its
    payload, an expectation is the payload that is expected, a store directive
    is the list of keys that receive the payload. *)
Module Demo.

#[export] Instance types : ExternalTypes := {|
  PClient := nat;
  Storage := gmap string string;
  Response := string;
  ExpectSpec := option string;
  StoreSpec := list string;
  Reporter := unit
|}.

(** The client [c] was built and has not been disconnected since. *)
Definition live_step (c : nat) (cur : bool) (e : event) : bool :=
  match e with
  | ENewPClient _ _ (Some c') => if decide (c' = c) then true else cur
  | EDisconnect c' => if decide (c' = c) then false else cur
  | _ => cur
  end.

Definition live (t : trace) (c : nat) : bool :=
  fold_left (live_step c) t false.

(** An argument named ["$missing"] stands for a template that does not
    resolve. *)
Definition resolve (raw : ArgsMap) (st : gmap string string) : ArgsMap + error :=
  match raw !! "$missing" with
  | Some _ => inr (errorString "template:unresolved")
  | None => inl raw
  end.

Definition check (ex : option string) (resp : string)
    (st : gmap string string) : option error :=
  match ex with
  | None => None
  | Some want =>
      if decide (want = resp) then None
      else Some (errorString "expectation:mismatch")
  end.

Definition keep (keys : list string) (st : gmap string string)
    (resp : string) : gmap string string * option error :=
  (foldr (fun k m => <[k := resp]> m) st keys, None).

(** The bytes of every raw response: [{}]. *)
Definition raw : list Byte.byte := [Byte.x7b; Byte.x7d].

(** The server answers a request and pushes on a route with the name of the
    route as payload, as long as the client is live; the host ["down"] cannot
    be reached and nothing is ever pushed on the route ["silent"]. *)
#[export] Instance server : Collaborators := {|
  newStorage := fun _ => ∅;
  buildArgs := resolve;
  sendRequest := fun t args route c _ =>
    if live t c then inl (route, raw)
    else inr (errorString "transport:closed");
  sendNotify := fun t args route c =>
    if live t c then None else Some (errorString "transport:closed");
  validateExpectations := check;
  storeData := keep;
  NewPClient := fun t h tls =>
    if decide (h = "down") then inr (errorString "transport:dial")
    else inl (length t);
  ReceivePush := fun t c route timeout =>
    if decide (route = "silent") then inr (errorString "push:timeout")
    else inl route;
  Connected := live
|}.

Definition cfg : viper := {|
  GetString := fun k => if decide (k = "server.host") then "alpha" else "";
  GetBool := fun _ => false
|}.

Definition op (kind uri : string) (args : list (string * value))
    (ex : option string) (keys : list string) : Operation :=
  {| Type_ := kind; URI := uri; Args := list_to_map args;
     Expect := ex; Store := keys; Timeout := 5 |}.

(** The first client the server hands out. *)
Definition c0 : PClient := 0%nat.

(** A bot as [NewSequentialBot] leaves it on an empty trace: client [c0] is
    connected to ["alpha"]. *)
Definition bot0 (steps : list Operation) : SequentialBot :=
  {| client := Some c0; config := cfg; id_ := 1;
     spec := {| SequentialOperations := steps |};
     storage := ∅; host := "alpha"; metricsReporter := [] |}.

Definition trace0 : trace :=
  [ENewPClient "alpha" false (Some c0); EStartListening c0].

(** The storage once the answer of ["/login"] is kept under ["uid"]. *)
Definition logged_in : Storage := {["uid" := "/login"]}.

(** Log in and keep the answer, ask for a profile that is expected to be
    ["u1"] (the server answers ["/profile"]), say goodbye. *)
Definition login : Operation := op "request" "/login" [("user", VStr "u1")] None ["uid"].
Definition profile : Operation := op "request" "/profile" [] (Some "u1") ["name"].
Definition bye : Operation := op "notify" "/bye" [] None [].
Definition scenario : list Operation := [login; profile; bye].

(** The same without the profile. *)
Definition errand : list Operation := [login; bye].

(** Disconnect, try to connect to the host that is down, send a request. *)
Definition hang_up : Operation := op "function" "disconnect" [] None [].
Definition dial_down : Operation :=
  op "function" "connect" [("host", VStr "down")] None [].
Definition ping : Operation := op "request" "/ping" [] None [].
Definition outage : list Operation := [hang_up; dial_down; ping].

(** A connect step whose [host] argument is a number. *)
Definition dial_number : Operation :=
  op "function" "connect" [("host", VNum 8080)] None [].

(** Wait for a push on ["news"] that is expected to be ["u1"]; the same
    operation as a request. *)
Definition wait_news : Operation := op "listen" "news" [] (Some "u1") ["k"].
Definition ask_news : Operation := op "request" "news" [] (Some "u1") ["k"].

(** A connect step without arguments, in a scenario where the bot is still
    connected when it comes. *)
Definition dial_again : Operation := op "function" "connect" [] None [].
Definition redial : list Operation := [login; dial_again; bye].

(** A connect step to the host ["beta"]. *)
Definition dial_beta : Operation :=
  op "function" "connect" [("host", VStr "beta")] None [].

(** A request and a connect step whose arguments do not resolve. *)
Definition lost : Operation := op "request" "/lost" [("$missing", VNil)] None [].
Definition dial_lost : Operation :=
  op "function" "connect" [("$missing", VNil)] None [].

(** A wait on the route where nothing is pushed, and a reconnect step with
    arguments that would not resolve. *)
Definition wait_silent : Operation := op "listen" "silent" [] None [].
Definition redo : Operation :=
  op "function" "reconnect" [("$missing", VNil)] None [].

(** The trace once the first client has been disconnected. *)
Definition hung_up : trace := trace0 ++ [EDisconnect c0].

End Demo.

(** ** Properties *)

Section Properties.
Context `{Ty : ExternalTypes} {E : Collaborators}.

Implicit Types (b : SequentialBot) (t : trace) (op : Operation).

Ltac unfold_m :=
  unfold mbind, mret, M_bind, M_ret, bind, ret, get_bot, get_trace, modify,
    emit, logger_Fatal, the_client in *.

Lemma set_host_same b : set_host (host b) b = b.
Proof. by destruct b. Qed.

Lemma set_storage_same b : set_storage (storage b) b = b.
Proof. by destruct b. Qed.

(** C5: an operation whose kind is none of request, notify, function and
    listen fails with the unknown-type error, and a function operation whose
    name is none of connect, disconnect and reconnect fails with the
    unknown-function error; in both cases the bot and the trace are left as
    they were, so nothing has been called on the protocol client. *)
Theorem unknown_step_fails_before_any_call op b t :
  (Type_ op ∉ ["request"; "notify"; "function"; "listen"] →
   runOperation op b t =
     (Done (Some (Errorf "Unknown type: " (Type_ op))), b, t)) ∧
  (Type_ op = "function" →
   URI op ∉ ["disconnect"; "connect"; "reconnect"] →
   runOperation op b t =
     (Done (Some (Errorf "Unknown function: " (URI op))), b, t)).
Proof.
  split.
  - intros Hk. unfold runOperation.
    repeat case_decide; try done; exfalso; apply Hk; set_solver.
  - intros Hk Hf. unfold runOperation, runFunction. rewrite Hk.
    repeat case_decide; try done; exfalso; apply Hf; set_solver.
Qed.

(** *** Request, notify and listen steps *)

(** What [validate_then_store] does, by the validator's verdict. *)
Lemma validate_then_store_fails wrap op resp b t err :
  validateExpectations (Expect op) resp (storage b) = Some err →
  validate_then_store wrap op resp b t = (Done (Some (wrap err)), b, t).
Proof. intros Hv. unfold validate_then_store. unfold_m. by rewrite Hv. Qed.

Lemma validate_then_store_passes wrap op resp b t :
  validateExpectations (Expect op) resp (storage b) = None →
  validate_then_store wrap op resp b t =
    (Done (storeData (Store op) (storage b) resp).2,
     set_storage (storeData (Store op) (storage b) resp).1 b, t).
Proof.
  intros Hv. unfold validate_then_store. unfold_m. rewrite Hv.
  by destruct (storeData _ _ _).
Qed.

(** C6: when the response of a request step does not meet the expectation,
    [runRequest] returns the expectation error built from the validator's
    error, the raw response and the expectation of the step; the bot, and so
    its storage, is the one the step started with, and the only call made is
    the request itself. *)
Theorem runRequest_mismatch_keeps_storage op b t c args resp rawResp err :
  buildArgs (Args op) (storage b) = inl args →
  client b = Some c →
  sendRequest t args (URI op) c (metricsReporter b) = inl (resp, rawResp) →
  validateExpectations (Expect op) resp (storage b) = Some err →
  runRequest op b t =
    (Done (Some (NewExpectError err rawResp (Expect op))), b,
     t ++ [ESendRequest c (URI op) args]).
Proof.
  intros Ha Hc Hs Hv. unfold runRequest. unfold_m.
  rewrite Ha, Hc, Hs. by rewrite (validate_then_store_fails _ _ _ _ _ err).
Qed.


(** C3, as the code has it: once the push of a listen step and the response
    of a request step are the same [resp], both steps leave the same bot
    (the store phase runs on the same condition and writes the same
    storage), and they return the same error unless validation fails; then
    the listen step returns the validator's error as it is, and the request
    step returns it inside the expectation error. *)
Theorem listen_validates_and_stores_like_request
    op b t t1 c args resp rawResp :
  client b = Some c →
  buildArgs (Args op) (storage b) = inl args →
  sendRequest t args (URI op) c (metricsReporter b) = inl (resp, rawResp) →
  ReceivePush t1 c (URI op) (Timeout op) = inl resp →
  ∃ oL oR b',
    listenToPush op b t1 =
      (Done oL, b', t1 ++ [EReceivePush c (URI op) (Timeout op)]) ∧
    runRequest op b t = (Done oR, b', t ++ [ESendRequest c (URI op) args]) ∧
    match validateExpectations (Expect op) resp (storage b) with
    | Some err =>
        oL = Some err ∧
        oR = Some (NewExpectError err rawResp (Expect op)) ∧
        b' = b
    | None =>
        oL = oR ∧ oL = (storeData (Store op) (storage b) resp).2 ∧
        b' = set_storage (storeData (Store op) (storage b) resp).1 b
    end.
Proof.
  intros Hc Ha Hs Hp. unfold listenToPush, runRequest. unfold_m.
  rewrite Hc, Ha. cbn. rewrite Hc. cbn. rewrite Hs, Hp.
  destruct (validateExpectations _ _ _) as [err|] eqn:Hv.
  - rewrite !(validate_then_store_fails _ _ _ _ _ err) by done. by eauto 10.
  - rewrite !validate_then_store_passes by done. by eauto 10.
Qed.

(** *** The connection lifecycle *)

(** [Connect] in one piece: the host is overwritten first, then comes the
    check for a connected client, then the new client. *)
Lemma Connect_unfold hosts b t :
  Connect hosts b t =
    let b1 := match hosts with h :: _ => set_host h b | [] => b end in
    if client_connected b t then (Fatal, b1, t)
    else match NewPClient t (host b1) (server_tls b) with
         | inr err =>
             (Done (Some err), b1,
              t ++ [ENewPClient (host b1) (server_tls b) None])
         | inl c =>
             (Done None, set_client (Some c) b1,
              t ++ [ENewPClient (host b1) (server_tls b) (Some c);
                    EStartListening c])
         end.
Proof.
  unfold Connect, startListening, server_tls, client_connected. unfold_m.
  destruct hosts as [|h hs]; cbn;
    (destruct (client b) as [c0|]; [destruct (Connected t c0)|]; try done);
    (destruct (NewPClient _ _ _); [|done]); cbn;
    by rewrite <- app_assoc.
Qed.

Lemma Disconnect_unfold b t :
  Disconnect b t =
    match client b with
    | Some c => (Done (), b, t ++ [EDisconnect c])
    | None => (Panic, b, t)
    end.
Proof. unfold Disconnect. unfold_m. by destruct (client b). Qed.

Lemma Reconnect_unfold b t :
  Reconnect b t =
    match client b with
    | Some c =>
        match Connect [] b (t ++ [EDisconnect c]) with
        | (Done _, b', t') => (Done (), b', t')
        | (Fatal, b', t') => (Fatal, b', t')
        | (Panic, b', t') => (Panic, b', t')
        end
    | None => (Panic, b, t)
    end.
Proof.
  unfold Reconnect.
  unfold mbind, M_bind, bind at 1. rewrite Disconnect_unfold.
  destruct (client b); [|done].
  unfold bind, mret, M_ret, ret.
  by destruct (Connect [] b _) as [[[] ?] ?].
Qed.

(** The branch of [runFunction] taken for the name [connect]. *)
Lemma runFunction_connect op b t :
  URI op = "connect" →
  runFunction op b t =
    (b0 ← get_bot;
     match buildArgs (Args op) (storage b0) with
     | inr err => mret (Some err)
     | inl args =>
         Connect [match args !! "host" with
                  | Some val => default (host b0) (as_string val)
                  | None => host b0
                  end] ;;
         mret None
     end) b t.
Proof.
  intros Hu. unfold runFunction. rewrite Hu.
  destruct (decide ("connect" = "disconnect")) as [?|_]; [done|].
  destruct (decide ("connect" = "connect")) as [_|?]; [|done].
  unfold mbind, M_bind, bind, get_bot.
  destruct (buildArgs _ _) as [args|err]; [|done].
  destruct (args !! "host") as [val|]; [|done].
  by destruct (as_string val).
Qed.

(** When [Connect] is called on a bot whose client is connected, the process
    exits: no client is built, nothing is called on the protocol client, and
    the bot still holds the client it had. *)
Lemma Connect_on_connected_client_is_fatal hosts b t c :
  client b = Some c →
  Connected t c = true →
  ∃ b', Connect hosts b t = (Fatal, b', t) ∧ client b' = Some c.
Proof.
  intros Hc Hl. rewrite Connect_unfold.
  unfold client_connected. rewrite Hc, Hl. cbn.
  eexists; split; [done|]. by destruct hosts.
Qed.

(** *** Invariants of the methods *)

Lemma preserves_ret {A} I (a : A) : preserves I (mret a).
Proof. by intros b t. Qed.

Lemma preserves_bind {A B} I (m : M A) (k : A → M B) :
  preserves I m → (∀ a, preserves I (k a)) → preserves I (m ≫= k).
Proof.
  intros Hm Hk b t HI. specialize (Hm b t HI).
  unfold mbind, M_bind, bind.
  destruct (m b t) as [[[a| |] b1] t1]; cbn in *; try done.
  by apply Hk.
Qed.

Lemma preserves_get_bot I : preserves I get_bot.
Proof. by intros b t. Qed.

Lemma preserves_get_trace I : preserves I get_trace.
Proof. by intros b t. Qed.

Lemma preserves_the_client I : preserves I the_client.
Proof. intros b t HI. unfold the_client. by destruct (client b). Qed.

Lemma preserves_defer {A} I (d : M unit) (m : M A) :
  preserves I d → preserves I m → preserves I (defer d m).
Proof.
  intros Hd Hm b t HI. specialize (Hm b t HI). unfold defer.
  destruct (m b t) as [[[a| |] b1] t1]; cbn in *; try done;
    specialize (Hd b1 t1 Hm);
    by destruct (d b1 t1) as [[[[]| |] b2] t2].
Qed.

Section Invariant.
Variable I : SequentialBot → trace → Prop.
Hypothesis I_call : ∀ b t e, not_dial e → I b t → I b (t ++ [e]).
Hypothesis I_storage : ∀ b t s, I b t → I (set_storage s b) t.
Hypothesis I_Connect : ∀ hosts, preserves I (Connect hosts).

Lemma preserves_emit e : not_dial e → preserves I (emit e).
Proof. intros He b t HI. by apply I_call. Qed.

Lemma preserves_set_storage s : preserves I (modify (set_storage s)).
Proof. intros b t HI. by apply I_storage. Qed.

Ltac preserve :=
  repeat first
    [ apply preserves_ret | apply preserves_get_bot
    | apply preserves_get_trace | apply preserves_the_client
    | apply preserves_set_storage | apply I_Connect
    | apply preserves_emit; exact Logic.I
    | apply preserves_bind; [|intros ?]
    | case_match ].

Lemma preserves_Disconnect : preserves I Disconnect.
Proof. unfold Disconnect. preserve. Qed.

Lemma preserves_Reconnect : preserves I Reconnect.
Proof. unfold Reconnect. pose proof preserves_Disconnect. preserve; done. Qed.

Lemma preserves_validate_then_store wrap op resp :
  preserves I (validate_then_store wrap op resp).
Proof. unfold validate_then_store. preserve. Qed.

Lemma preserves_runRequest op : preserves I (runRequest op).
Proof.
  unfold runRequest. pose proof preserves_validate_then_store.
  preserve; done.
Qed.

Lemma preserves_runNotify op : preserves I (runNotify op).
Proof. unfold runNotify. preserve. Qed.

Lemma preserves_listenToPush op : preserves I (listenToPush op).
Proof.
  unfold listenToPush. pose proof preserves_validate_then_store.
  preserve; done.
Qed.

Lemma preserves_runFunction op : preserves I (runFunction op).
Proof.
  unfold runFunction.
  pose proof preserves_Disconnect. pose proof preserves_Reconnect.
  preserve; done.
Qed.

Lemma preserves_runOperation op : preserves I (runOperation op).
Proof.
  unfold runOperation.
  pose proof preserves_runRequest. pose proof preserves_runNotify.
  pose proof preserves_runFunction. pose proof preserves_listenToPush.
  preserve; done.
Qed.

Lemma preserves_runSteps steps : preserves I (runSteps steps).
Proof.
  induction steps as [|step rest IH]; cbn [runSteps].
  - apply preserves_ret.
  - apply preserves_bind; [apply preserves_runOperation|].
    intros [e|]; [apply preserves_ret | done].
Qed.

Lemma preserves_Run : preserves I Run.
Proof.
  intros b t HI. unfold Run.
  by apply preserves_defer;
    [apply preserves_Disconnect | apply preserves_runSteps |].
Qed.

End Invariant.

Lemma has_client_Connect hosts : preserves has_client (Connect hosts).
Proof.
  intros b t HI. rewrite Connect_unfold. unfold has_client in *. cbn.
  destruct hosts; repeat case_match; by cbn.
Qed.

Lemma has_client_runSteps steps : preserves has_client (runSteps steps).
Proof.
  apply preserves_runSteps; [done | done | apply has_client_Connect].
Qed.

Lemma has_client_runOperation op : preserves has_client (runOperation op).
Proof.
  apply preserves_runOperation; [done | done | apply has_client_Connect].
Qed.

(** *** The run loop *)

(** The loop on [pre ++ rest] is the loop on [pre], and the loop on [rest]
    only if no step of [pre] returned an error. *)
Lemma runSteps_app pre rest b t :
  runSteps (pre ++ rest) b t =
    match runSteps pre b t with
    | (Done None, b', t') => runSteps rest b' t'
    | r => r
    end.
Proof.
  revert b t. induction pre as [|step pre IH]; intros b t; [done|].
  cbn [app runSteps]. unfold mbind, M_bind, bind.
  destruct (runOperation step b t) as [[[[e|]| |] b1] t1];
    first [done | apply IH].
Qed.

Lemma Run_after_steps b t o b' t' c :
  runSteps (SequentialOperations (spec b)) b t = (Done o, b', t') →
  client b' = Some c →
  Run b t = (Done o, b', t' ++ [EDisconnect c]).
Proof.
  intros Hs Hc. unfold Run, defer. rewrite Hs, Disconnect_unfold.
  by rewrite Hc.
Qed.

(** A step that returns an error has not disconnected: what it added to the
    trace is at most its own request, notify or wait. *)
(** Closes a goal on the trace with one of the two facts at hand: nothing was
    added, or one event that is not a disconnect. *)
Ltac closing :=
  first [ eassumption
        | match goal with H : ∀ ev, _ → _ |- _ => apply H; exact Logic.I end ].

Lemma failing_step_does_not_disconnect op b t e b' t' :
  runOperation op b t = (Done (Some e), b', t') →
  ∃ evs, t' = t ++ evs ∧ Forall not_disconnect evs.
Proof.
  assert (∀ ev, not_disconnect ev → ∃ evs,
            t ++ [ev] = t ++ evs ∧ Forall not_disconnect evs) as Hone.
  { intros ev Hev. exists [ev]. split; [done|]. by constructor. }
  assert (∃ evs, t = t ++ evs ∧ Forall not_disconnect evs) as Hnone.
  { exists []. split; [by rewrite app_nil_r | constructor]. }
  unfold runOperation.
  destruct (decide (Type_ op = "request")) as [_|_]; [|
  destruct (decide (Type_ op = "notify")) as [_|_]; [|
  destruct (decide (Type_ op = "function")) as [_|_]; [|
  destruct (decide (Type_ op = "listen")) as [_|_]]]].
  - unfold runRequest, validate_then_store. unfold_m.
    intros Heq. repeat case_match; simplify_eq; closing.
  - unfold runNotify. unfold_m.
    intros Heq. repeat case_match; simplify_eq; closing.
  - destruct (decide (URI op = "connect")) as [Hu|Hu].
    + rewrite runFunction_connect by done.
      unfold mbind, M_bind, bind, mret, M_ret, ret, get_bot.
      intros Heq. repeat case_match; simplify_eq; closing.
    + unfold runFunction.
      destruct (decide (URI op = "disconnect")) as [_|_]; [|
      destruct (decide (URI op = "connect")) as [?|_]; [done|
      destruct (decide (URI op = "reconnect")) as [_|_]]];
        unfold mbind, M_bind, bind, mret, M_ret, ret;
        intros Heq; repeat case_match; simplify_eq; closing.
  - unfold listenToPush, validate_then_store. unfold_m.
    intros Heq. repeat case_match; simplify_eq; closing.
  - unfold_m. intros Heq. simplify_eq. closing.
Qed.

(** C1: let the scenario be [pre ++ opk :: post], let the steps of [pre] all
    return nil and let the handler of [opk] return the error [e].  Then [Run]
    returns [e]; the failing step itself has not disconnected, and the trace
    of [Run] is the trace at the end of [opk] followed by one [Disconnect] on
    the bot's client, so no step of [post] has called anything.  When every
    step of the scenario returns nil, [Run] returns nil and its trace is the
    trace of the steps followed by one [Disconnect]. *)
Theorem Run_stops_at_first_error_and_disconnects_once b t :
  is_Some (client b) →
  (∀ pre opk post bk tk e b' t',
     SequentialOperations (spec b) = pre ++ opk :: post →
     runSteps pre b t = (Done None, bk, tk) →
     runOperation opk bk tk = (Done (Some e), b', t') →
     ∃ c evs,
       client b' = Some c ∧
       t' = tk ++ evs ∧ Forall not_disconnect evs ∧
       Run b t = (Done (Some e), b', tk ++ evs ++ [EDisconnect c])) ∧
  (∀ b' t',
     runSteps (SequentialOperations (spec b)) b t = (Done None, b', t') →
     ∃ c, client b' = Some c ∧
          Run b t = (Done None, b', t' ++ [EDisconnect c])).
Proof.
  intros Hb. split.
  - intros pre opk post bk tk e b' t' Hsteps Hpre Hk.
    assert (is_Some (client b')) as [c Hc].
    { pose proof (has_client_runSteps pre b t Hb) as H1.
      rewrite Hpre in H1. cbn in H1.
      pose proof (has_client_runOperation opk bk tk H1) as H2.
      by rewrite Hk in H2. }
    destruct (failing_step_does_not_disconnect _ _ _ _ _ _ Hk)
      as (evs & Ht' & Hevs).
    exists c, evs. split_and!; [done..|].
    rewrite app_assoc, <- Ht'. apply Run_after_steps; [|done].
    rewrite Hsteps, runSteps_app, Hpre. cbn [runSteps].
    unfold mbind, M_bind, bind. by rewrite Hk.
  - intros b' t' Hs.
    assert (is_Some (client b')) as [c Hc].
    { pose proof (has_client_runSteps (SequentialOperations (spec b)) b t Hb)
        as H1.
      by rewrite Hs in H1. }
    exists c. split; [done|]. by apply Run_after_steps.
Qed.

(** *** One live client *)

Section OneLive.
Hypothesis HC : Connected_only_by_NewPClient.

Lemma one_live_call b t e : not_dial e → one_live b t → one_live b (t ++ [e]).
Proof.
  intros He HI c Hc. destruct (Connected t c) eqn:Hold; [by apply HI|].
  destruct (HC t e c Hold Hc) as (h & tls & ->). done.
Qed.

Lemma one_live_Connect hosts : preserves one_live (Connect hosts).
Proof.
  intros b t HI. rewrite Connect_unfold. cbn zeta.
  destruct (client_connected b t) eqn:Hcc.
  { cbn. intros c Hc. destruct hosts; by apply HI. }
  assert (∀ c, Connected t c = false) as Hdead.
  { intros c. destruct (Connected t c) eqn:Hc; [|done].
    unfold client_connected in Hcc. rewrite (HI c Hc) in Hcc. congruence. }
  destruct (NewPClient _ _ _) as [c'|err]; cbn.
  - match goal with |- one_live _ (t ++ [?e1; ?e2]) =>
      change (t ++ [e1; e2]) with (t ++ ([e1] ++ [e2])); rewrite app_assoc
    end.
    apply one_live_call; [done|].
    intros c Hc.
    destruct (HC _ _ c (Hdead c) Hc) as (h & tls & Heq).
    injection Heq as _ _ ->. by destruct hosts.
  - intros c Hc. by destruct (HC _ _ c (Hdead c) Hc) as (h & tls & Heq).
Qed.

Lemma one_live_reachable b t : reachable b t → one_live b t.
Proof.
  induction 1 as [cfg sp i mr t0 b t Hdead Hnew| | | | |].
  - unfold NewSequentialBot in Hnew.
    match type of Hnew with context [Connect [] ?b0 t0] =>
      pose proof (one_live_Connect [] b0 t0) as Hc;
      destruct (Connect [] b0 t0) as [[[[e|]| |] b1] t1]
    end; simplify_eq.
    apply Hc. intros c Hc'. by rewrite Hdead in Hc'.
  - by apply preserves_runOperation;
      [apply one_live_call | | apply one_live_Connect |].
  - by apply preserves_Run;
      [apply one_live_call | | apply one_live_Connect |].
  - by apply one_live_Connect.
  - by apply preserves_Disconnect; [apply one_live_call |].
  - by apply preserves_Reconnect;
      [apply one_live_call | apply one_live_Connect |].
Qed.

End OneLive.

(** C4: as long as a disconnected client never comes back, in every state a
    bot reaches the only client that can be connected is the one the bot
    holds; and in any such state a [Connect] on a connected client makes the
    process exit, with no client built, nothing called on the protocol client
    and the connected client still in the bot. *)
Theorem at_most_one_live_client b t :
  Connected_only_by_NewPClient →
  reachable b t →
  (∀ c, Connected t c = true → client b = Some c) ∧
  (∀ hosts c, client b = Some c → Connected t c = true →
     ∃ b', Connect hosts b t = (Fatal, b', t) ∧ client b' = Some c).
Proof.
  intros HC Hr. split.
  - by apply one_live_reachable.
  - intros hosts c. apply Connect_on_connected_client_is_fatal.
Qed.

(** *** Storage and host across the lifecycle *)

Lemma Connect_frame s hosts b t :
  Connect hosts (set_storage s b) t = with_storage s (Connect hosts b t).
Proof.
  rewrite !Connect_unfold. unfold client_connected, server_tls. cbn.
  destruct hosts; cbn; repeat case_match; done.
Qed.

Lemma Disconnect_frame s b t :
  Disconnect (set_storage s b) t = with_storage s (Disconnect b t).
Proof. rewrite !Disconnect_unfold. cbn. by destruct (client b). Qed.

Lemma Reconnect_frame s b t :
  Reconnect (set_storage s b) t = with_storage s (Reconnect b t).
Proof.
  rewrite !Reconnect_unfold. cbn [client set_storage].
  destruct (client b) as [c|]; [|done].
  rewrite Connect_frame.
  by destruct (Connect [] b _) as [[[o| |] b1] t1].
Qed.

Lemma with_storage_same {A} (m : M A) b t :
  m (set_storage (storage b) b) t = with_storage (storage b) (m b t) →
  storage (m b t).1.2 = storage b.
Proof. rewrite set_storage_same. by intros ->. Qed.

(** C8: [Reconnect] calls [Disconnect] on the client, then builds a client
    for the host stored in the bot ([Connect] without a host); and none of
    [Connect], [Disconnect] and [Reconnect] reads or writes the storage: run
    on a bot with another storage they do the same and leave that storage in
    place, and the storage they leave is the one they found. *)
Theorem lifecycle_leaves_storage b t :
  Reconnect b t =
    match client b with
    | None => (Panic, b, t)
    | Some c =>
        let t1 := t ++ [EDisconnect c] in
        if Connected t1 c then (Fatal, b, t1)
        else match NewPClient t1 (host b) (server_tls b) with
             | inr err =>
                 (Done (), b,
                  t ++ [EDisconnect c;
                        ENewPClient (host b) (server_tls b) None])
             | inl c' =>
                 (Done (), set_client (Some c') b,
                  t ++ [EDisconnect c;
                        ENewPClient (host b) (server_tls b) (Some c');
                        EStartListening c'])
             end
    end ∧
  (∀ s hosts,
     Connect hosts (set_storage s b) t = with_storage s (Connect hosts b t) ∧
     Disconnect (set_storage s b) t = with_storage s (Disconnect b t) ∧
     Reconnect (set_storage s b) t = with_storage s (Reconnect b t)) ∧
  (∀ hosts, storage (Connect hosts b t).1.2 = storage b) ∧
  storage (Disconnect b t).1.2 = storage b ∧
  storage (Reconnect b t).1.2 = storage b.
Proof.
  split; [|split; [|split; [|split]]].
  - rewrite Reconnect_unfold. destruct (client b) as [c|] eqn:Hc; [|done].
    rewrite Connect_unfold. unfold client_connected. rewrite Hc. cbn.
    destruct (Connected _ c); [done|].
    destruct (NewPClient _ _ _); by rewrite <- app_assoc.
  - intros s hosts.
    by rewrite Connect_frame, Disconnect_frame, Reconnect_frame.
  - intros hosts. apply with_storage_same, Connect_frame.
  - apply with_storage_same, Disconnect_frame.
  - apply with_storage_same, Reconnect_frame.
Qed.

(** C9: in a connect function step whose resolved [host] argument is present
    and is not a string, the step is [Connect] called with the host the bot
    already has, its error dropped: when no client is connected a client is
    built for that host, the host of the bot stays what it was and the step
    returns nil. *)
Theorem connect_ignores_host_that_is_not_a_string op b t args val :
  URI op = "connect" →
  buildArgs (Args op) (storage b) = inl args →
  args !! "host" = Some val →
  as_string val = None →
  runFunction op b t = (Connect [host b] ;; mret None) b t ∧
  (client_connected b t = false →
   runFunction op b t =
     match NewPClient t (host b) (server_tls b) with
     | inr err =>
         (Done None, b, t ++ [ENewPClient (host b) (server_tls b) None])
     | inl c =>
         (Done None, set_client (Some c) b,
          t ++ [ENewPClient (host b) (server_tls b) (Some c);
                EStartListening c])
     end).
Proof.
  intros Hu Ha Hh Hs.
  assert (runFunction op b t = (Connect [host b] ;; mret None) b t) as Heq.
  { rewrite runFunction_connect by done.
    unfold mbind, M_bind, bind, get_bot. by rewrite Ha, Hh, Hs. }
  split; [done|]. intros Hcc. rewrite Heq.
  unfold mbind, M_bind, bind. rewrite Connect_unfold, Hcc. cbn.
  rewrite set_host_same. by destruct (NewPClient _ _ _).
Qed.

(** What a connect function step does when the new client cannot be built:
    the error of [Connect] is dropped and the step returns nil. *)
Lemma runFunction_connect_drops_error op b t args err :
  URI op = "connect" →
  buildArgs (Args op) (storage b) = inl args →
  args !! "host" = None →
  client_connected b t = false →
  NewPClient t (host b) (server_tls b) = inr err →
  runFunction op b t =
    (Done None, b, t ++ [ENewPClient (host b) (server_tls b) None]).
Proof.
  intros Hu Ha Hh Hcc Hn. rewrite runFunction_connect by done.
  unfold mbind, M_bind, bind, get_bot. rewrite Ha, Hh.
  rewrite Connect_unfold, Hcc. cbn. by rewrite set_host_same, Hn.
Qed.

(** C10: [Connect] with an explicit host leaves that host in the bot whatever
    its outcome: when the check for a connected client makes the process
    exit, and when the client cannot be built; [Connect] without a host,
    [Reconnect] and [Disconnect] keep the stored host, and when the first two
    return, the client they tried to build is for the stored host. *)
Theorem explicit_host_persists b t :
  (∀ h hs, host (Connect (h :: hs) b t).1.2 = h) ∧
  (∀ h hs,
     client_connected b t = true →
     Connect (h :: hs) b t = (Fatal, set_host h b, t)) ∧
  (∀ h hs err,
     client_connected b t = false →
     NewPClient t h (server_tls b) = inr err →
     Connect (h :: hs) b t =
       (Done (Some err), set_host h b,
        t ++ [ENewPClient h (server_tls b) None])) ∧
  (host (Connect [] b t).1.2 = host b ∧
   ∀ o b' t', Connect [] b t = (Done o, b', t') →
     ∃ res rest, t' = t ++ ENewPClient (host b) (server_tls b) res :: rest) ∧
  (host (Reconnect b t).1.2 = host b ∧
   ∀ o b' t', Reconnect b t = (Done o, b', t') →
     ∃ c res rest,
       t' = t ++ EDisconnect c ::
                 ENewPClient (host b) (server_tls b) res :: rest) ∧
  host (Disconnect b t).1.2 = host b.
Proof.
  split; [|split; [|split; [|split; [|split]]]].
  - intros h hs. rewrite Connect_unfold. cbn. by repeat case_match.
  - intros h hs Hcc. by rewrite Connect_unfold, Hcc.
  - intros h hs err Hcc Hn. rewrite Connect_unfold, Hcc. cbn. by rewrite Hn.
  - rewrite Connect_unfold. cbn. split; [by repeat case_match|].
    intros o b' t' Heq. repeat case_match; simplify_eq; by eauto.
  - rewrite Reconnect_unfold. destruct (client b) as [c|]; [|done].
    rewrite Connect_unfold. cbn zeta.
    destruct (client_connected _ _); [done|].
    destruct (NewPClient _ _ _) as [c'|err]; cbn;
      (split; [done|]); intros o b' t' Heq; simplify_eq;
      rewrite <- app_assoc; by eauto.
  - rewrite Disconnect_unfold. by destruct (client b).
Qed.

End Properties.

(** ** Further properties of the methods *)

Section MoreProperties.
Context `{Ty : ExternalTypes} {E : Collaborators}.

Implicit Types (b : SequentialBot) (t : trace) (op : Operation).

Ltac unfold_m :=
  unfold mbind, mret, M_bind, M_ret, bind, ret, get_bot, get_trace, modify,
    emit, logger_Fatal, the_client in *.

(** *** Building the bot *)

(** X1: [NewSequentialBot] builds one client, for the host and the TLS flag of
    the configuration, and starts its listener; the bot it returns holds that
    client, a new storage and the configured host.  When the client cannot be
    built it returns the error and no bot.  It neither exits nor panics: the
    bot has no client yet when [Connect] checks for a connected one. *)
Theorem NewSequentialBot_builds_one_client cfg sp i mr t :
  let h := GetString cfg "server.host" in
  let tls := GetBool cfg "server.tls" in
  NewSequentialBot cfg sp i mr t =
    match NewPClient t h tls with
    | inl c =>
        (Done (inl {| client := Some c; config := cfg; id_ := i; spec := sp;
                      storage := newStorage cfg; host := h;
                      metricsReporter := mr |}),
         t ++ [ENewPClient h tls (Some c); EStartListening c])
    | inr err => (Done (inr err), t ++ [ENewPClient h tls None])
    end.
Proof.
  cbn zeta. unfold NewSequentialBot. rewrite Connect_unfold.
  unfold client_connected, server_tls. cbn.
  by destruct (NewPClient _ _ _).
Qed.

(** X2: every bot that [NewSequentialBot] returned, however it was driven since,
    holds a client: [b.client] is never nil again. *)
Theorem reachable_bot_has_client b t : reachable b t → is_Some (client b).
Proof.
  induction 1 as [cfg sp i mr t0 b t _ Hnew| | | | |].
  - rewrite NewSequentialBot_builds_one_client in Hnew. cbn zeta in Hnew.
    destruct (NewPClient _ _ _); by simplify_eq.
  - by apply has_client_runOperation.
  - by apply (preserves_Run has_client);
      [| | apply has_client_Connect |].
  - by apply has_client_Connect.
  - by apply (preserves_Disconnect has_client).
  - by apply (preserves_Reconnect has_client);
      [| apply has_client_Connect |].
Qed.

(** *** No call through a nil client *)

Lemma keeps_client_ret {A} (a : A) : keeps_client (mret a).
Proof. by intros b t Hb. Qed.

Lemma keeps_client_bind {A B} (m : M A) (k : A → M B) :
  keeps_client m → (∀ a, keeps_client (k a)) → keeps_client (m ≫= k).
Proof.
  intros Hm Hk b t Hb. destruct (Hm b t Hb) as [Hp Hc].
  unfold mbind, M_bind, bind.
  destruct (m b t) as [[[a| |] b1] t1]; cbn in *; try done.
  by apply Hk.
Qed.

Lemma keeps_client_get_bot : keeps_client get_bot.
Proof. by intros b t Hb. Qed.

Lemma keeps_client_get_trace : keeps_client get_trace.
Proof. by intros b t Hb. Qed.

Lemma keeps_client_the_client : keeps_client the_client.
Proof. intros b t [c Hc]. unfold the_client. rewrite Hc. by eauto. Qed.

Lemma keeps_client_emit e : keeps_client (emit e).
Proof. by intros b t Hb. Qed.

Lemma keeps_client_set_storage s : keeps_client (modify (set_storage s)).
Proof. by intros b t Hb. Qed.

Lemma keeps_client_Connect hosts : keeps_client (Connect hosts).
Proof.
  intros b t Hb. rewrite Connect_unfold. cbn zeta.
  destruct (client_connected b t); [by destruct hosts|].
  destruct (NewPClient _ _ _); cbn; split; try done; by destruct hosts.
Qed.

Lemma keeps_client_defer {A} (d : M unit) (m : M A) :
  keeps_client d → keeps_client m → keeps_client (defer d m).
Proof.
  intros Hd Hm b t Hb. destruct (Hm b t Hb) as [Hp Hc]. unfold defer.
  destruct (m b t) as [[[a| |] b1] t1]; cbn in *; try done.
  destruct (Hd b1 t1 Hc) as [Hp' Hc'].
  by destruct (d b1 t1) as [[[[]| |] b2] t2].
Qed.

Ltac keep_client :=
  repeat first
    [ apply keeps_client_ret | apply keeps_client_get_bot
    | apply keeps_client_get_trace | apply keeps_client_the_client
    | apply keeps_client_set_storage | apply keeps_client_Connect
    | apply keeps_client_emit
    | apply keeps_client_bind; [|intros ?]
    | case_match ].

Lemma keeps_client_Disconnect : keeps_client Disconnect.
Proof. unfold Disconnect. keep_client. Qed.

Lemma keeps_client_Reconnect : keeps_client Reconnect.
Proof. unfold Reconnect. pose proof keeps_client_Disconnect. keep_client; done. Qed.

Lemma keeps_client_validate_then_store wrap op resp :
  keeps_client (validate_then_store wrap op resp).
Proof. unfold validate_then_store. keep_client. Qed.

Lemma keeps_client_runOperation op : keeps_client (runOperation op).
Proof.
  pose proof keeps_client_validate_then_store.
  pose proof keeps_client_Disconnect. pose proof keeps_client_Reconnect.
  unfold runOperation, runRequest, runNotify, runFunction, listenToPush.
  keep_client; done.
Qed.

Lemma keeps_client_runSteps steps : keeps_client (runSteps steps).
Proof.
  induction steps as [|step rest IH]; cbn [runSteps].
  - apply keeps_client_ret.
  - apply keeps_client_bind; [apply keeps_client_runOperation|].
    intros [e|]; [apply keeps_client_ret | done].
Qed.

(** X3: on a bot that holds a client no method panics: neither a step, nor the
    loop, nor [Run] with its deferred [Disconnect], nor a lifecycle call ever
    reaches the protocol client through a nil pointer. *)
Theorem no_call_through_a_nil_client b t :
  is_Some (client b) →
  (∀ op, (runOperation op b t).1.1 ≠ Panic) ∧
  (∀ steps, (runSteps steps b t).1.1 ≠ Panic) ∧
  (Run b t).1.1 ≠ Panic ∧
  (∀ hosts, (Connect hosts b t).1.1 ≠ Panic) ∧
  (Disconnect b t).1.1 ≠ Panic ∧
  (Reconnect b t).1.1 ≠ Panic.
Proof.
  intros Hb. split_and!.
  - intros op. by apply keeps_client_runOperation.
  - intros steps. by apply keeps_client_runSteps.
  - unfold Run.
    by apply keeps_client_defer;
      [apply keeps_client_Disconnect | apply keeps_client_runSteps |].
  - intros hosts. by apply keeps_client_Connect.
  - by apply keeps_client_Disconnect.
  - by apply keeps_client_Reconnect.
Qed.

(** *** How the loop composes *)

(** X4: the loop over [pre ++ rest] is the loop over [pre] followed, when [pre]
    ended without an error, by the loop over [rest] from the bot and the trace
    [pre] left; when [pre] ended otherwise, [rest] changes nothing. *)
Theorem runSteps_composes pre rest b t o bk tk :
  runSteps pre b t = (o, bk, tk) →
  (o = Done None → runSteps (pre ++ rest) b t = runSteps rest bk tk) ∧
  (o ≠ Done None → runSteps (pre ++ rest) b t = (o, bk, tk)).
Proof.
  intros Hpre. rewrite runSteps_app, Hpre. split.
  - by intros ->.
  - intros Ho. by destruct o as [[e|]| |].
Qed.

(** *** Fatal exits *)

(** X5: a step ends in a fatal exit only if it is a connect or a reconnect
    function step, and then the bot still holds the client it had, which is
    connected at the moment of the exit; the storage is untouched.  Request,
    notify, listen and disconnect steps never exit. *)
Theorem fatal_exit_only_from_connect op b t b' t' :
  runOperation op b t = (Fatal, b', t') →
  Type_ op = "function" ∧
  (URI op = "connect" ∨ URI op = "reconnect") ∧
  (∃ c, client b = Some c ∧ client b' = Some c ∧ Connected t' c = true) ∧
  storage b' = storage b.
Proof.
  unfold runOperation.
  destruct (decide (Type_ op = "request")) as [_|_]; [|
  destruct (decide (Type_ op = "notify")) as [_|_]; [|
  destruct (decide (Type_ op = "function")) as [Hf|_]; [|
  destruct (decide (Type_ op = "listen")) as [_|_]]]].
  - unfold runRequest, validate_then_store. unfold_m.
    intros Heq. by repeat case_match.
  - unfold runNotify. unfold_m. intros Heq. by repeat case_match.
  - destruct (decide (URI op = "connect")) as [Hu|Hu].
    + rewrite runFunction_connect by done.
      unfold mbind, M_bind, bind, mret, M_ret, ret, get_bot.
      destruct (buildArgs _ _) as [args|err]; [|done].
      rewrite Connect_unfold. cbn zeta. unfold client_connected.
      destruct (client b) as [c|] eqn:Hc;
        [destruct (Connected t c) eqn:Hl|];
        [|destruct (NewPClient _ _ _); done..].
      intros Heq. simplify_eq. split_and!; [done|by left| |done].
      exists c. by rewrite Hl.
    + unfold runFunction.
      destruct (decide (URI op = "disconnect")) as [_|_]; [|
      destruct (decide (URI op = "connect")) as [?|_]; [done|
      destruct (decide (URI op = "reconnect")) as [Hr|_]]].
      * unfold mbind, M_bind, bind. rewrite Disconnect_unfold.
        by destruct (client b).
      * unfold mbind, M_bind, bind. rewrite Reconnect_unfold.
        destruct (client b) as [c|] eqn:Hc; [|done].
        rewrite Connect_unfold. cbn zeta. unfold client_connected.
        rewrite Hc.
        destruct (Connected (t ++ [EDisconnect c]) c) eqn:Hl;
          [|destruct (NewPClient _ _ _); done].
        intros Heq. simplify_eq. split_and!; [done|by right| |done].
        exists c. by rewrite Hl.
      * done.
  - unfold listenToPush, validate_then_store. unfold_m.
    intros Heq. by repeat case_match.
  - done.
Qed.

(** X6: when a step exits, [Run] ends there: the later steps are not run and the
    deferred [Disconnect] is not called, the trace of [Run] is the trace at
    the exit. *)
Theorem Run_exit_skips_the_deferred_Disconnect b t pre opk post bk tk b' t' :
  SequentialOperations (spec b) = pre ++ opk :: post →
  runSteps pre b t = (Done None, bk, tk) →
  runOperation opk bk tk = (Fatal, b', t') →
  Run b t = (Fatal, b', t').
Proof.
  intros Hsteps Hpre Hk. unfold Run, defer.
  rewrite Hsteps, runSteps_app, Hpre. cbn [runSteps].
  unfold mbind, M_bind, bind. by rewrite Hk.
Qed.

(** *** What a step changes and what it returns *)

(** X7: a request step and a listen step change nothing of the bot but its
    storage, and a notify step changes nothing at all: none of them touches
    the client or the host. *)
Theorem data_steps_change_only_storage op b t :
  (runRequest op b t).1.2 =
    set_storage (storage (runRequest op b t).1.2) b ∧
  (listenToPush op b t).1.2 =
    set_storage (storage (listenToPush op b t).1.2) b ∧
  (runNotify op b t).1.2 = b.
Proof.
  assert (∀ wrap resp t0,
            (validate_then_store wrap op resp b t0).1.2 =
              set_storage
                (storage (validate_then_store wrap op resp b t0).1.2) b)
    as Hvs.
  { intros wrap resp t0.
    destruct (validateExpectations (Expect op) resp (storage b)) eqn:Hv.
    - rewrite (validate_then_store_fails _ _ _ _ _ _ Hv). cbn.
      by rewrite set_storage_same.
    - by rewrite (validate_then_store_passes _ _ _ _ _ Hv). }
  split_and!.
  - unfold runRequest. unfold_m.
    destruct (buildArgs _ _) as [args|err];
      [|cbn; by rewrite set_storage_same].
    destruct (client b) as [c|]; [|cbn; by rewrite set_storage_same].
    destruct (sendRequest _ _ _ _ _) as [[resp rawResp]|err];
      [apply Hvs | cbn; by rewrite set_storage_same].
  - unfold listenToPush. unfold_m.
    destruct (client b) as [c|]; [|cbn; by rewrite set_storage_same].
    destruct (ReceivePush _ _ _ _) as [resp|err];
      [apply Hvs | cbn; by rewrite set_storage_same].
  - unfold runNotify. unfold_m.
    destruct (buildArgs _ _) as [args|err]; [|done].
    by destruct (client b).
Qed.

(** X8: when the arguments of a request, of a notify or of a connect function
    step do not resolve, the step returns the error of the resolver and has
    called nothing: the bot and the trace are as they were. *)
Theorem unresolved_args_fail_before_any_call op b t e :
  buildArgs (Args op) (storage b) = inr e →
  runRequest op b t = (Done (Some e), b, t) ∧
  runNotify op b t = (Done (Some e), b, t) ∧
  (URI op = "connect" → runFunction op b t = (Done (Some e), b, t)).
Proof.
  intros Ha. split_and!.
  - unfold runRequest. unfold_m. by rewrite Ha.
  - unfold runNotify. unfold_m. by rewrite Ha.
  - intros Hu. rewrite runFunction_connect by done.
    unfold mbind, M_bind, bind, get_bot. by rewrite Ha.
Qed.

(** X9: when the request fails in transport, or no push arrives, the step
    returns that error as it is; the bot is unchanged, neither validation nor
    store has run. *)
Theorem transport_error_is_returned_as_is op b t c e :
  client b = Some c →
  (∀ args,
     buildArgs (Args op) (storage b) = inl args →
     sendRequest t args (URI op) c (metricsReporter b) = inr e →
     runRequest op b t =
       (Done (Some e), b, t ++ [ESendRequest c (URI op) args])) ∧
  (ReceivePush t c (URI op) (Timeout op) = inr e →
   listenToPush op b t =
     (Done (Some e), b, t ++ [EReceivePush c (URI op) (Timeout op)])).
Proof.
  intros Hc. split.
  - intros args Ha Hs. unfold runRequest. unfold_m. by rewrite Ha, Hc, Hs.
  - intros Hp. unfold listenToPush. unfold_m. by rewrite Hc, Hp.
Qed.

(** X10: a function step returns an error in two cases only: the arguments of a
    connect step do not resolve, or the name is unknown.  In both the bot and
    the trace are as they were; a failure to disconnect, to connect or to
    reconnect is never what a function step returns. *)
Theorem function_step_error_is_local op b t e b' t' :
  runFunction op b t = (Done (Some e), b', t') →
  b' = b ∧ t' = t ∧
  ((URI op = "connect" ∧ buildArgs (Args op) (storage b) = inr e) ∨
   ((URI op ∉ ["disconnect"; "connect"; "reconnect"]) ∧
    e = Errorf "Unknown function: " (URI op))).
Proof.
  destruct (decide (URI op = "connect")) as [Hu|Hu].
  - rewrite runFunction_connect by done.
    unfold mbind, M_bind, bind, mret, M_ret, ret, get_bot.
    destruct (buildArgs _ _) as [args|err] eqn:Ha.
    + intros Heq. by repeat case_match.
    + intros Heq. simplify_eq. by eauto.
  - unfold runFunction.
    destruct (decide (URI op = "disconnect")) as [_|Hd]; [|
    destruct (decide (URI op = "connect")) as [?|_]; [done|
    destruct (decide (URI op = "reconnect")) as [_|Hr]]];
      unfold mbind, M_bind, bind, mret, M_ret, ret; intros Heq.
    + by repeat case_match.
    + by repeat case_match.
    + simplify_eq. split_and!; [done..|]. right. split; [|done].
      intros Hin.
      repeat (apply elem_of_cons in Hin as [?|Hin]; [done|]).
      by apply elem_of_nil in Hin.
Qed.

(** X11: no function step changes the storage, whatever its name, its arguments
    and its outcome. *)
Theorem function_steps_keep_storage op b t :
  storage (runFunction op b t).1.2 = storage b.
Proof.
  destruct (decide (URI op = "connect")) as [Hu|Hu].
  - rewrite runFunction_connect by done.
    unfold mbind, M_bind, bind, mret, M_ret, ret, get_bot.
    destruct (buildArgs _ _) as [args|err]; [|done].
    rewrite Connect_unfold. cbn zeta.
    destruct (client_connected b t); [done|].
    by destruct (NewPClient _ _ _).
  - unfold runFunction.
    destruct (decide (URI op = "disconnect")) as [_|_]; [|
    destruct (decide (URI op = "connect")) as [?|_]; [done|
    destruct (decide (URI op = "reconnect")) as [_|_]]];
      unfold mbind, M_bind, bind, mret, M_ret, ret.
    + rewrite Disconnect_unfold. by destruct (client b).
    + rewrite Reconnect_unfold. destruct (client b) as [c|]; [|done].
      rewrite Connect_unfold. cbn zeta.
      destruct (client_connected b _); [done|].
      by destruct (NewPClient _ _ _).
    + done.
Qed.

(** *** The host of a connect step *)

(** X12: a connect function step whose resolved [host] argument is a string is
    [Connect] on that string, its error dropped, and the string is the host
    of the bot afterwards whatever the outcome; a connect step without a
    [host] argument is [Connect] on the host of the bot, which stays. *)
Theorem connect_step_host op b t args :
  URI op = "connect" →
  buildArgs (Args op) (storage b) = inl args →
  (∀ h, args !! "host" = Some (VStr h) →
        runFunction op b t = (Connect [h] ;; mret None) b t ∧
        host (runFunction op b t).1.2 = h) ∧
  (args !! "host" = None →
   runFunction op b t = (Connect [host b] ;; mret None) b t ∧
   host (runFunction op b t).1.2 = host b).
Proof.
  intros Hu Ha.
  assert (∀ h, host ((Connect [h] ;; mret (None : option error)) b t).1.2
               = h) as Hhost.
  { intros h. unfold mbind, M_bind, bind, mret, M_ret, ret.
    rewrite Connect_unfold. cbn zeta.
    destruct (client_connected b t); [done|].
    by destruct (NewPClient _ _ _). }
  split.
  - intros h Hh.
    assert (runFunction op b t = (Connect [h] ;; mret None) b t) as ->; [|done].
    rewrite runFunction_connect by done.
    unfold mbind, M_bind, bind, get_bot. by rewrite Ha, Hh.
  - intros Hh.
    assert (runFunction op b t = (Connect [host b] ;; mret None) b t)
      as ->; [|done].
    rewrite runFunction_connect by done.
    unfold mbind, M_bind, bind, get_bot. by rewrite Ha, Hh.
Qed.

(** X13: what [Connect] returns tells what it did.  It returns nil exactly when
    the client was built: the bot then holds the new client and the listener
    was started on it, once, right after.  It returns an error exactly when
    the client could not be built: the error is that of [NewPClient], the bot
    keeps the client it had and no listener is started. *)
Theorem Connect_result hosts b t o b' t' :
  Connect hosts b t = (Done o, b', t') →
  match o with
  | None =>
      ∃ c, NewPClient t (host b') (server_tls b) = inl c ∧
           client b' = Some c ∧
           t' = t ++ [ENewPClient (host b') (server_tls b) (Some c);
                      EStartListening c]
  | Some e =>
      NewPClient t (host b') (server_tls b) = inr e ∧
      client b' = client b ∧
      t' = t ++ [ENewPClient (host b') (server_tls b) None]
  end.
Proof.
  rewrite Connect_unfold. cbn zeta.
  destruct (client_connected b t); [done|].
  destruct (NewPClient _ _ _) as [c|e] eqn:Hn; intros Heq; simplify_eq.
  - exists c. by destruct hosts.
  - by destruct hosts.
Qed.

(** *** What is set once *)

Lemma same_setup_Connect b0 hosts :
  preserves (fun b _ => same_setup b0 b) (Connect hosts).
Proof.
  intros b t HI. rewrite Connect_unfold. cbn zeta.
  destruct (client_connected b t); [by destruct hosts|].
  destruct (NewPClient _ _ _); by destruct hosts.
Qed.

(** X14: the configuration, the id, the scenario and the metrics reporters of the
    bot are never changed: not by a step, not by the loop, not by [Run], not
    by a lifecycle call. *)
Theorem setup_is_never_changed b t :
  (∀ op, same_setup b (runOperation op b t).1.2) ∧
  (∀ steps, same_setup b (runSteps steps b t).1.2) ∧
  same_setup b (Run b t).1.2 ∧
  (∀ hosts, same_setup b (Connect hosts b t).1.2) ∧
  same_setup b (Disconnect b t).1.2 ∧
  same_setup b (Reconnect b t).1.2.
Proof.
  assert (same_setup b b) as Hb by done.
  split_and!.
  - intros op.
    by apply (preserves_runOperation (fun b' _ => same_setup b b'));
      [| | apply same_setup_Connect |].
  - intros steps.
    by apply (preserves_runSteps (fun b' _ => same_setup b b'));
      [| | apply same_setup_Connect |].
  - by apply (preserves_Run (fun b' _ => same_setup b b'));
      [| | apply same_setup_Connect |].
  - intros hosts. by apply same_setup_Connect.
  - by apply (preserves_Disconnect (fun b' _ => same_setup b b')).
  - by apply (preserves_Reconnect (fun b' _ => same_setup b b'));
      [| apply same_setup_Connect |].
Qed.

(** *** What a handler does not read *)

(** X15: a listen step does not resolve arguments: it reads the route, the
    timeout, the expectation and the store directive of the operation and
    nothing else.  A notify step reads the route and the arguments only.  A
    function step other than connect reads the name only, so arguments that
    would not resolve do not make a disconnect or a reconnect step fail. *)
Theorem handlers_read_only_their_fields op op' b t :
  URI op = URI op' →
  (Timeout op = Timeout op' → Expect op = Expect op' → Store op = Store op' →
   listenToPush op b t = listenToPush op' b t) ∧
  (Args op = Args op' → runNotify op b t = runNotify op' b t) ∧
  (URI op ≠ "connect" → runFunction op b t = runFunction op' b t).
Proof.
  intros Hu. split_and!.
  - intros Ht He Hs. unfold listenToPush, validate_then_store.
    by rewrite Hu, Ht, He, Hs.
  - intros Ha. unfold runNotify. by rewrite Hu, Ha.
  - intros Hc. assert (URI op' ≠ "connect") as Hc' by by rewrite <- Hu.
    unfold runFunction. rewrite <- Hu.
    destruct (decide (URI op = "disconnect")); [done|].
    destruct (decide (URI op = "connect")); done.
Qed.

End MoreProperties.

(** ** The properties on the scripted server *)

Section DemoRuns.
Import Demo.

(** The scripted server meets the assumption on [Connected]. *)
Lemma live_snoc t e c : live (t ++ [e]) c = live_step c (live t c) e.
Proof. unfold live. by rewrite fold_left_app. Qed.

Lemma live_only_by_NewPClient : Connected_only_by_NewPClient.
Proof.
  intros t e c Hold Hnew. cbn in *. rewrite live_snoc, Hold in Hnew.
  destruct e as [h tls [c'|]|c'|c'| | |]; cbn in Hnew; try done.
  - case_decide; [subst; by eauto | done].
  - by case_decide.
Qed.

(** [bot0] on [trace0] is what [NewSequentialBot] returns on the empty
    trace. *)
Lemma bot0_reachable steps : reachable (bot0 steps) trace0.
Proof.
  by apply (reach_new cfg {| SequentialOperations := steps |} 1 [] []).
Qed.

(** The scenario stops at the profile, whose expectation fails; the errand
    runs to its end. *)
Lemma Run_stops_at_first_error_witness :
  Run (bot0 scenario) trace0 =
    (Done (Some (ExpectError (errorString "expectation:mismatch") raw
                   (Expect profile))),
     set_storage logged_in (bot0 scenario),
     trace0 ++ [ESendRequest c0 "/login" (Args login);
                ESendRequest c0 "/profile" ∅;
                EDisconnect c0]) ∧
  Run (bot0 errand) trace0 =
    (Done None, set_storage logged_in (bot0 errand),
     trace0 ++ [ESendRequest c0 "/login" (Args login);
                ESendNotify c0 "/bye" ∅;
                EDisconnect c0]).
Proof.
  split.
  - destruct (Run_stops_at_first_error_and_disconnects_once
                (bot0 scenario) trace0) as [Hfail _]; [by eexists|].
    destruct (Hfail [login] profile [bye]
                (set_storage logged_in (bot0 scenario))
                (trace0 ++ [ESendRequest c0 "/login" (Args login)])
                (ExpectError (errorString "expectation:mismatch") raw
                   (Expect profile))
                (set_storage logged_in (bot0 scenario))
                (trace0 ++ [ESendRequest c0 "/login" (Args login);
                            ESendRequest c0 "/profile" ∅]))
      as (c & evs & Hc & Hevs & _ & HRun); [reflexivity..|].
    injection Hc as <-. rewrite app_assoc, <- Hevs in HRun. exact HRun.
  - destruct (Run_stops_at_first_error_and_disconnects_once
                (bot0 errand) trace0) as [_ Hok]; [by eexists|].
    destruct (Hok (set_storage logged_in (bot0 errand))
                (trace0 ++ [ESendRequest c0 "/login" (Args login);
                            ESendNotify c0 "/bye" ∅]))
      as (c & Hc & HRun); [reflexivity|].
    injection Hc as <-. exact HRun.
Defined.

(** A step of kind [subscribe] and a function named [sleep]. *)
Lemma unknown_step_witness :
  runOperation (op "subscribe" "/feed" [] None []) (bot0 scenario) trace0 =
    (Done (Some (errorString "Unknown type: subscribe")), bot0 scenario,
     trace0) ∧
  runOperation (op "function" "sleep" [] None []) (bot0 scenario) trace0 =
    (Done (Some (errorString "Unknown function: sleep")), bot0 scenario,
     trace0).
Proof.
  split.
  - apply (unknown_step_fails_before_any_call
             (op "subscribe" "/feed" [] None [])).
    cbn. intros H. by repeat (apply elem_of_cons in H as [H|H]; [done|]);
      apply elem_of_nil in H.
  - apply (unknown_step_fails_before_any_call
             (op "function" "sleep" [] None [])); [reflexivity|].
    cbn. intros H. by repeat (apply elem_of_cons in H as [H|H]; [done|]);
      apply elem_of_nil in H.
Defined.

(** The profile request after the login: the storage still holds [uid]
    only. *)
Lemma runRequest_mismatch_witness :
  runRequest profile (set_storage logged_in (bot0 scenario)) trace0 =
    (Done (Some (ExpectError (errorString "expectation:mismatch") raw
                   (Expect profile))),
     set_storage logged_in (bot0 scenario),
     trace0 ++ [ESendRequest c0 "/profile" ∅]).
Proof.
  apply (runRequest_mismatch_keeps_storage profile
           (set_storage logged_in (bot0 scenario)) trace0 c0 ∅ "/profile"
           raw (errorString "expectation:mismatch"));
    reflexivity.
Defined.

(** The same operation run as a listen step and as a request step. *)
Lemma listen_like_request_witness :
  ∃ oL oR b',
    listenToPush wait_news (bot0 scenario) trace0 =
      (Done oL, b', trace0 ++ [EReceivePush c0 "news" 5]) ∧
    runRequest wait_news (bot0 scenario) trace0 =
      (Done oR, b', trace0 ++ [ESendRequest c0 "news" ∅]) ∧
    oL = Some (errorString "expectation:mismatch") ∧
    oR = Some (ExpectError (errorString "expectation:mismatch") raw
                 (Expect wait_news)) ∧
    b' = bot0 scenario.
Proof.
  exact (listen_validates_and_stores_like_request wait_news
           (bot0 scenario) trace0 trace0 c0 ∅ "news" raw
           eq_refl eq_refl eq_refl eq_refl).
Defined.

(** C3, the claim as it is written, does not hold: on the same expectation
    and the same payload ["news"], the request step returns the expectation
    error with the raw response and the expectation in it, and the listen
    step returns the bare error of the validator, which is no expectation
    error at all. *)
Lemma listen_mismatch_is_not_an_expectation_error :
  (runRequest ask_news (bot0 scenario) trace0).1.1 =
    Done (Some (ExpectError (errorString "expectation:mismatch") raw
                  (Expect ask_news))) ∧
  (listenToPush wait_news (bot0 scenario) trace0).1.1 =
    Done (Some (errorString "expectation:mismatch")) ∧
  ¬ ∃ err rawResp expect,
      (listenToPush wait_news (bot0 scenario) trace0).1.1 =
        Done (Some (ExpectError err rawResp expect)).
Proof.
  split; [reflexivity|]. split; [reflexivity|].
  intros (err & rawResp & expect & H). discriminate H.
Qed.

(** On the connected [bot0] every [Connect] exits. *)
Lemma at_most_one_live_client_witness :
  (∀ c, Connected trace0 c = true → client (bot0 scenario) = Some c) ∧
  (∀ hosts, ∃ b',
     Connect hosts (bot0 scenario) trace0 = (Fatal, b', trace0) ∧
     client b' = Some c0).
Proof.
  destruct (at_most_one_live_client (bot0 scenario) trace0
              live_only_by_NewPClient (bot0_reachable scenario))
    as [Hone Hfatal].
  split; [exact Hone|].
  intros hosts. apply Hfatal; reflexivity.
Defined.

(** The host [8080] is a number: the bot dials ["alpha"] again. *)
Lemma connect_ignores_host_witness :
  runFunction dial_number (bot0 scenario) (trace0 ++ [EDisconnect c0]) =
    (Done None, set_client (Some 3%nat) (bot0 scenario),
     trace0 ++ [EDisconnect c0; ENewPClient "alpha" false (Some 3%nat);
                EStartListening 3%nat]).
Proof.
  destruct (connect_ignores_host_that_is_not_a_string dial_number
              (bot0 scenario) (trace0 ++ [EDisconnect c0])
              (Args dial_number) (VNum 8080))
    as [_ Hrun]; [reflexivity..|].
  rewrite Hrun by reflexivity. reflexivity.
Defined.

(** ["beta"] on a connected bot, ["down"] after a disconnect, and the next
    [Connect] without a host. *)
Lemma explicit_host_persists_witness :
  Connect ["beta"] (bot0 scenario) trace0 =
    (Fatal, set_host "beta" (bot0 scenario), trace0) ∧
  Connect ["down"] (bot0 scenario) (trace0 ++ [EDisconnect c0]) =
    (Done (Some (errorString "transport:dial")),
     set_host "down" (bot0 scenario),
     trace0 ++ [EDisconnect c0] ++ [ENewPClient "down" false None]) ∧
  ∃ res rest,
    (trace0 ++ [EDisconnect c0]) ++ [ENewPClient "down" false None] =
      (trace0 ++ [EDisconnect c0]) ++ ENewPClient "down" false res :: rest.
Proof.
  split; [|split].
  - destruct (explicit_host_persists (bot0 scenario) trace0)
      as (_ & Hfatal & _).
    apply (Hfatal "beta" []). reflexivity.
  - destruct (explicit_host_persists (bot0 scenario)
                (trace0 ++ [EDisconnect c0])) as (_ & _ & Hfail & _).
    apply (Hfail "down" [] (errorString "transport:dial")); reflexivity.
  - destruct (explicit_host_persists (set_host "down" (bot0 scenario))
                (trace0 ++ [EDisconnect c0]))
      as (_ & _ & _ & [_ Hdial] & _).
    exact (Hdial (Some (errorString "transport:dial"))
             (set_host "down" (bot0 scenario))
             ((trace0 ++ [EDisconnect c0]) ++ [ENewPClient "down" false None])
             eq_refl).
Defined.

(** C2, on the scenario [outage]: the server cannot be reached at ["down"],
    [NewPClient] fails, and the connect step returns nil all the same; [Run]
    goes on to the next step, which sends its request on the client that was
    disconnected, and it is the error of that request that [Run] returns. *)
Lemma connect_step_drops_the_connection_error :
  let b := bot0 outage in
  let t := trace0 ++ [EDisconnect c0] in
  NewPClient t "down" false = inr (errorString "transport:dial") ∧
  Connect ["down"] b t =
    (Done (Some (errorString "transport:dial")), set_host "down" b,
     t ++ [ENewPClient "down" false None]) ∧
  runFunction dial_down b t =
    (Done None, set_host "down" b, t ++ [ENewPClient "down" false None]) ∧
  Run b trace0 =
    (Done (Some (errorString "transport:closed")), set_host "down" b,
     trace0 ++ [EDisconnect c0; ENewPClient "down" false None;
                ESendRequest c0 "/ping" ∅; EDisconnect c0]).
Proof. repeat split. Qed.

End DemoRuns.

(** ** The further properties on the scripted server *)

Section MoreDemoRuns.
Import Demo.

(** The bot built on the empty trace holds a client. *)
Lemma reachable_bot_has_client_witness : is_Some (client (bot0 scenario)).
Proof.
  exact (reachable_bot_has_client (bot0 scenario) trace0
           (bot0_reachable scenario)).
Defined.

(** Neither the scenario nor the outage makes [Run] panic. *)
Lemma no_call_through_a_nil_client_witness :
  (Run (bot0 scenario) trace0).1.1 ≠ Panic ∧
  (Run (bot0 outage) trace0).1.1 ≠ Panic.
Proof.
  split.
  - destruct (no_call_through_a_nil_client (bot0 scenario) trace0)
      as (_ & _ & HRun & _); [by eexists | exact HRun].
  - destruct (no_call_through_a_nil_client (bot0 outage) trace0)
      as (_ & _ & HRun & _); [by eexists | exact HRun].
Defined.

(** The scenario split after the login, and after the profile. *)
Lemma runSteps_composes_witness :
  runSteps ([login] ++ [profile; bye]) (bot0 scenario) trace0 =
    runSteps [profile; bye] (set_storage logged_in (bot0 scenario))
      (trace0 ++ [ESendRequest c0 "/login" (Args login)]) ∧
  runSteps ([login; profile] ++ [bye]) (bot0 scenario) trace0 =
    runSteps [login; profile] (bot0 scenario) trace0.
Proof.
  split.
  - destruct (runSteps_composes [login] [profile; bye] (bot0 scenario) trace0
                (Done None) (set_storage logged_in (bot0 scenario))
                (trace0 ++ [ESendRequest c0 "/login" (Args login)]))
      as [Hok _]; [reflexivity|].
    apply Hok. reflexivity.
  - destruct (runSteps_composes [login; profile] [bye] (bot0 scenario) trace0
                (Done (Some (NewExpectError
                               (errorString "expectation:mismatch") raw
                               (Expect profile))))
                (set_storage logged_in (bot0 scenario))
                (trace0 ++ [ESendRequest c0 "/login" (Args login);
                            ESendRequest c0 "/profile" ∅]))
      as [_ Hstop]; [reflexivity|].
    rewrite Hstop by discriminate. reflexivity.
Defined.

(** A connect step on the connected [bot0]. *)
Lemma fatal_exit_only_from_connect_witness :
  Type_ dial_again = "function" ∧
  (URI dial_again = "connect" ∨ URI dial_again = "reconnect") ∧
  (∃ c, client (bot0 redial) = Some c ∧ client (bot0 redial) = Some c ∧
        Connected trace0 c = true) ∧
  storage (bot0 redial) = storage (bot0 redial).
Proof.
  apply (fatal_exit_only_from_connect dial_again (bot0 redial) trace0
           (bot0 redial) trace0).
  reflexivity.
Defined.

(** [redial] exits at its second step: nothing after the login is in the
    trace. *)
Lemma Run_exit_witness :
  Run (bot0 redial) trace0 =
    (Fatal, set_storage logged_in (bot0 redial),
     trace0 ++ [ESendRequest c0 "/login" (Args login)]).
Proof.
  apply (Run_exit_skips_the_deferred_Disconnect (bot0 redial) trace0
           [login] dial_again [bye]
           (set_storage logged_in (bot0 redial))
           (trace0 ++ [ESendRequest c0 "/login" (Args login)]));
    reflexivity.
Defined.

(** Arguments that do not resolve, in a request and in a connect step. *)
Lemma unresolved_args_witness :
  runRequest lost (bot0 scenario) trace0 =
    (Done (Some (errorString "template:unresolved")), bot0 scenario,
     trace0) ∧
  runFunction dial_lost (bot0 scenario) trace0 =
    (Done (Some (errorString "template:unresolved")), bot0 scenario,
     trace0).
Proof.
  split.
  - destruct (unresolved_args_fail_before_any_call lost (bot0 scenario)
                trace0 (errorString "template:unresolved"))
      as [Hreq _]; [reflexivity | exact Hreq].
  - destruct (unresolved_args_fail_before_any_call dial_lost (bot0 scenario)
                trace0 (errorString "template:unresolved"))
      as (_ & _ & Hfun); [reflexivity|].
    apply Hfun. reflexivity.
Defined.

(** A request on the client that was disconnected, and a wait on the silent
    route. *)
Lemma transport_error_witness :
  runRequest ping (bot0 outage) hung_up =
    (Done (Some (errorString "transport:closed")), bot0 outage,
     hung_up ++ [ESendRequest c0 "/ping" ∅]) ∧
  listenToPush wait_silent (bot0 scenario) trace0 =
    (Done (Some (errorString "push:timeout")), bot0 scenario,
     trace0 ++ [EReceivePush c0 "silent" 5]).
Proof.
  split.
  - destruct (transport_error_is_returned_as_is ping (bot0 outage) hung_up
                c0 (errorString "transport:closed")) as [Hreq _];
      [reflexivity|].
    apply (Hreq ∅); reflexivity.
  - destruct (transport_error_is_returned_as_is wait_silent (bot0 scenario)
                trace0 c0 (errorString "push:timeout")) as [_ Hpush];
      [reflexivity|].
    apply Hpush. reflexivity.
Defined.

(** The error of a connect step whose arguments do not resolve. *)
Lemma function_step_error_witness :
  bot0 scenario = bot0 scenario ∧ trace0 = trace0 ∧
  ((URI dial_lost = "connect" ∧
    buildArgs (Args dial_lost) (storage (bot0 scenario)) =
      inr (errorString "template:unresolved")) ∨
   ((URI dial_lost ∉ ["disconnect"; "connect"; "reconnect"]) ∧
    errorString "template:unresolved" =
      Errorf "Unknown function: " (URI dial_lost))).
Proof.
  apply (function_step_error_is_local dial_lost (bot0 scenario) trace0
           (errorString "template:unresolved") (bot0 scenario) trace0).
  reflexivity.
Defined.

(** A connect step to ["beta"] and a connect step without a host, after a
    disconnect. *)
Lemma connect_step_host_witness :
  host (runFunction dial_beta (bot0 scenario) hung_up).1.2 = "beta" ∧
  host (runFunction dial_again (bot0 scenario) hung_up).1.2 = "alpha".
Proof.
  split.
  - destruct (connect_step_host dial_beta (bot0 scenario) hung_up
                (Args dial_beta)) as [Hstr _]; [reflexivity..|].
    destruct (Hstr "beta") as [_ Hhost]; [reflexivity | exact Hhost].
  - destruct (connect_step_host dial_again (bot0 scenario) hung_up
                (Args dial_again)) as [_ Hnone]; [reflexivity..|].
    destruct Hnone as [_ Hhost]; [reflexivity | exact Hhost].
Defined.

(** [Connect] to ["beta"] succeeds after a disconnect, [Connect] to ["down"]
    fails. *)
Lemma Connect_result_witness :
  (∃ c, NewPClient hung_up "beta" false = inl c ∧
        client (set_client (Some 3%nat) (set_host "beta" (bot0 scenario))) =
          Some c ∧
        hung_up ++ [ENewPClient "beta" false (Some 3%nat);
                    EStartListening 3%nat] =
          hung_up ++ [ENewPClient "beta" false (Some c);
                      EStartListening c]) ∧
  (NewPClient hung_up "down" false = inr (errorString "transport:dial") ∧
   client (set_host "down" (bot0 scenario)) = client (bot0 scenario) ∧
   hung_up ++ [ENewPClient "down" false None] =
     hung_up ++ [ENewPClient "down" false None]).
Proof.
  split.
  - exact (Connect_result ["beta"] (bot0 scenario) hung_up None
             (set_client (Some 3%nat) (set_host "beta" (bot0 scenario)))
             (hung_up ++ [ENewPClient "beta" false (Some 3%nat);
                          EStartListening 3%nat])
             eq_refl).
  - exact (Connect_result ["down"] (bot0 scenario) hung_up
             (Some (errorString "transport:dial"))
             (set_host "down" (bot0 scenario))
             (hung_up ++ [ENewPClient "down" false None])
             eq_refl).
Defined.

(** A wait whose arguments would not resolve, and a reconnect step with such
    arguments. *)
Lemma handlers_read_only_their_fields_witness :
  listenToPush wait_news (bot0 scenario) trace0 =
    listenToPush (op "listen" "news" [("$missing", VNil)] (Some "u1") ["k"])
      (bot0 scenario) trace0 ∧
  runFunction redo (bot0 scenario) trace0 =
    runFunction (op "function" "reconnect" [] None []) (bot0 scenario) trace0.
Proof.
  split.
  - destruct (handlers_read_only_their_fields wait_news
                (op "listen" "news" [("$missing", VNil)] (Some "u1") ["k"])
                (bot0 scenario) trace0) as [Hl _]; [reflexivity|].
    apply Hl; reflexivity.
  - destruct (handlers_read_only_their_fields redo
                (op "function" "reconnect" [] None [])
                (bot0 scenario) trace0) as (_ & _ & Hf); [reflexivity|].
    apply Hf. discriminate.
Defined.

End MoreDemoRuns.
